(** * COMPASS native layer: registration table, exported wrappers, counter

    Sources embedded here:
    - [src/COMPASS_init.c]: the forward declarations of the native
      routines, the [.Call] registration table [callMethods] and the
      library initialiser [R_init_COMPASS];
    - [src/RcppExports.cpp]: the two generated wrappers around the
      Combinatorial Counter.

    The numerical bodies of the routines (counter, samplers, updaters) are
    not part of these two files; where a property needs one of them, the
    definition says so in its doc comment. *)

From Stdlib Require Import List ZArith QArith String Bool Lia Sorted.
Import ListNotations.
Local Open Scope string_scope.
Local Open Scope Z_scope.

(** ** Forward declarations *)

(** Types that occur in the declarations of the two files. *)
Inductive ctype : Type :=
| SEXP
| IntegerMatrix
| RList.

Definition ctype_eqb (a b : ctype) : bool :=
  match a, b with
  | SEXP, SEXP | IntegerMatrix, IntegerMatrix | RList, RList => true
  | _, _ => false
  end.

(** A C prototype [ret name(t1 p1, ..., tn pn);]. *)
Record fdecl : Type := Fdecl {
  fd_ret : ctype;
  fd_name : string;
  fd_params : list (ctype * string)
}.

Definition sexp_params (names : list string) : list (ctype * string) :=
  map (fun n => (SEXP, n)) names.

(** Names of the parameters, in declaration order. *)
Definition param_names (d : fdecl) : list string := map snd (fd_params d).

(** Number of parameters of type [SEXP]. *)
Definition sexp_arity (d : fdecl) : Z :=
  Z.of_nat (List.length (filter (fun p => ctype_eqb (fst p) SEXP) (fd_params d))).

(** [d] takes exactly the inputs [names], in this order, and nothing else. *)
Definition takes_exactly (d : fdecl) (names : list string) : Prop :=
  param_names d = names.

Module Init.

(** COMPASS_init.c, lines 8-86. *)

Definition melt_dataframe : fdecl :=
  Fdecl SEXP "melt_dataframe"
    (sexp_params ["x"; "id_ind_"; "val_ind_"; "variable_name"; "value_name"]).

Definition melt_matrix : fdecl :=
  Fdecl SEXP "melt_matrix" (sexp_params ["x"]).

Definition transpose_list : fdecl :=
  Fdecl SEXP "transpose_list" (sexp_params ["x"]).

Definition _COMPASS_CellCounts_character : fdecl :=
  Fdecl SEXP "_COMPASS_CellCounts_character"
    (sexp_params ["dataSEXP"; "combinationsSEXP"]).

Definition _COMPASS_CellCounts : fdecl :=
  Fdecl SEXP "_COMPASS_CellCounts" (sexp_params ["xSEXP"; "combosSEXP"]).

Definition samplePuPs : fdecl :=
  Fdecl SEXP "samplePuPs"
    (sexp_params ["alphau"; "alphas"; "gammat"; "T"; "K"; "nsi"; "nui"; "d"; "M"]).

Definition samplePuPs_full : fdecl :=
  Fdecl SEXP "samplePuPs_full"
    (sexp_params ["alphau"; "alphas"; "gammat"; "T"; "K"; "nsi"; "nui"; "d"; "M"]).

Definition updatealphas_Exp : fdecl :=
  Fdecl SEXP "updatealphas_Exp"
    (sexp_params ["alphast"; "n_s"; "K"; "I"; "lambda_s"; "gammat";
                  "var_1"; "var_2"; "p_var"; "ttt"]).

Definition updatealphas_Exp_MH : fdecl :=
  Fdecl SEXP "updatealphas_Exp_MH"
    (sexp_params ["alphast"; "n_s"; "K"; "I"; "lambda_s"; "gammat";
                  "var_1"; "var_2"; "p_var"]).

Definition updatealphau_noPu_Exp : fdecl :=
  Fdecl SEXP "updatealphau_noPu_Exp"
    (sexp_params ["alphaut"; "n_s"; "n_u"; "I"; "K"; "lambda_u"; "var_p";
                  "ttt"; "gammat"]).

Definition updatealphau_noPu_Exp_MH : fdecl :=
  Fdecl SEXP "updatealphau_noPu_Exp_MH"
    (sexp_params ["alphaut"; "n_s"; "n_u"; "I"; "K"; "lambda_u"; "var_p";
                  "gammat"]).

Definition updategammak_noPu : fdecl :=
  Fdecl SEXP "updategammak_noPu"
    (sexp_params ["n_s"; "n_u"; "gammat"; "I"; "K"; "SS"; "alphau"; "alphas";
                  "alpha"; "mk"; "Istar"; "mKstar"; "pp"; "pb1"; "pb2";
                  "indi"]).

(** ** The registration table *)

(** [R_CallMethodDef] of R_ext/Rdynload.h: [{name, fun, numArgs}].  A
    [NULL] name or function pointer is [None]; [& f] is the declaration
    of [f]. *)
Record R_CallMethodDef : Type := CallDef {
  name : option string;
  fun_ : option fdecl;
  numArgs : Z
}.

Definition entry (n : string) (f : fdecl) (k : Z) : R_CallMethodDef :=
  CallDef (Some n) (Some f) k.

Definition sentinel : R_CallMethodDef := CallDef None None 0.

(** COMPASS_init.c, lines 88-102. *)
Definition callMethods : list R_CallMethodDef :=
  [ entry "C_melt_dataframe" melt_dataframe 5;
    entry "C_melt_matrix" melt_matrix 1;
    entry "C_transpose_list" transpose_list 1;
    entry "C_COMPASS_CellCounts_character" _COMPASS_CellCounts_character 2;
    entry "C_COMPASS_CellCounts" _COMPASS_CellCounts 2;
    entry "C_samplePuPs" samplePuPs 9;
    entry "C_samplePuPs_full" samplePuPs_full 9;
    entry "C_updatealphas_Exp" updatealphas_Exp 10;
    entry "C_updatealphas_Exp_MH" updatealphas_Exp_MH 9;
    entry "C_updatealphau_noPu_Exp" updatealphau_noPu_Exp 9;
    entry "C_updatealphau_noPu_Exp_MH" updatealphau_noPu_Exp_MH 8;
    entry "C_updategammak_noPu" updategammak_noPu 16;
    sentinel ].

(** ** Registration *)

(** A registered routine: what R keeps of one table entry. *)
Record routine : Type := Routine {
  r_name : string;
  r_fun : option fdecl;
  r_numArgs : Z
}.

(** R walks a method table from its first entry until the first entry
    whose name is [NULL]; entries after it are never read. *)
Fixpoint read_table (t : list R_CallMethodDef) : list routine :=
  match t with
  | [] => []
  | e :: rest =>
      match name e with
      | None => []
      | Some n => Routine n (fun_ e) (numArgs e) :: read_table rest
      end
  end.

(** The part of [DllInfo] that the initialiser touches: the four routine
    tables and the dynamic-lookup flag. *)
Record DllInfo : Type := MkDllInfo {
  CSymbols : list routine;
  CallSymbols : list routine;
  FortranSymbols : list routine;
  ExternalSymbols : list routine;
  useDynamicSymbols : bool
}.

(** [R_registerRoutines(info, cMethods, callMethods, fortranMethods,
    externalMethods)]; a [NULL] table is [None] and leaves the
    corresponding table of [info] as it is. *)
Definition R_registerRoutines (info : DllInfo)
    (c call fortran external : option (list R_CallMethodDef)) : DllInfo :=
  let tab o old := match o with None => old | Some t => read_table t end in
  MkDllInfo (tab c (CSymbols info)) (tab call (CallSymbols info))
            (tab fortran (FortranSymbols info))
            (tab external (ExternalSymbols info))
            (useDynamicSymbols info).

Definition R_useDynamicSymbols (info : DllInfo) (value : bool) : DllInfo :=
  MkDllInfo (CSymbols info) (CallSymbols info) (FortranSymbols info)
            (ExternalSymbols info) value.

(** COMPASS_init.c, lines 104-107. *)
Definition R_init_COMPASS (info : DllInfo) : DllInfo :=
  let info := R_registerRoutines info None (Some callMethods) None None in
  R_useDynamicSymbols info false.

(** Lookup of a [.Call] routine by its registered name. *)
Definition lookup_call (info : DllInfo) (n : string) : option routine :=
  find (fun r => String.eqb (r_name r) n) (CallSymbols info).


(** The inputs of the category-probability sampler. *)
Definition sampler_inputs : list string :=
  ["alphau"; "alphas"; "gammat"; "T"; "K"; "nsi"; "nui"; "d"; "M"].

(** Name, C symbol and argument count of each registered routine. *)
Definition summary (rs : list routine) : list (string * option string * Z) :=
  map (fun r => (r_name r, option_map fd_name (r_fun r), r_numArgs r)) rs.

(** An entry agrees with the prototype its function pointer refers to. *)
Definition arity_agrees (e : R_CallMethodDef) : Prop :=
  match fun_ e with
  | Some d => numArgs e = sexp_arity d
  | None => False
  end.

End Init.

(** ** The exported wrappers of RcppExports.cpp *)

Module Exports.

(** Result of running a piece of C++: it returns or it throws. *)
Inductive outcome (E A : Type) : Type :=
| Normal (a : A)
| Thrown (e : E).
Arguments Normal {E A} a.
Arguments Thrown {E A} e.

(** What the caller of a native routine can observe at the boundary:
    a value, an R error raised through [stop], or (what the guard is there
    to exclude) a C++ exception leaving the routine. *)
Inductive boundary (E C S : Type) : Type :=
| Returned (v : S)
| R_error (c : C)
| Escaped (e : E).
Arguments Returned {E C S} v.
Arguments R_error {E C S} c.
Arguments Escaped {E C S} e.

(** The state the wrappers act on: the nesting depth of Rcpp RNG scopes
    and the calls made to R's generator state. *)
Inductive rng_event : Type := GetRNGstate | PutRNGstate.

Record world : Type := World {
  rngDepth : nat;
  rngLog : list rng_event
}.

(** Modelled from the spec: [Rcpp::RNGScope] belongs to the Rcpp headers,
    which are not in src/.  Its constructor enters an RNG scope and its
    destructor leaves it; the outermost scope reads the generator state of
    R on entry and writes it back on exit. *)
Definition enterRNGScope (w : world) : world :=
  World (S (rngDepth w))
        (if Nat.eqb (rngDepth w) 0 then rngLog w ++ [GetRNGstate] else rngLog w).

Definition exitRNGScope (w : world) : world :=
  World (Nat.pred (rngDepth w))
        (if Nat.eqb (rngDepth w) 1 then rngLog w ++ [PutRNGstate] else rngLog w).

(** RcppExports.cpp, lines 14 and 26: the prototypes of the two
    counters. *)
Definition CellCounts_proto : fdecl :=
  Fdecl IntegerMatrix "CellCounts" [(RList, "x"); (RList, "combos")].

Definition CellCounts_character_proto : fdecl :=
  Fdecl IntegerMatrix "CellCounts_character"
    [(RList, "data"); (RList, "combinations")].

Section Wrappers.

(** R values, Rcpp lists, integer matrices, C++ exceptions and R
    conditions are kept abstract; so are the conversions of Rcpp and the
    two counter functions, which RcppExports.cpp only declares. *)
Context {sexp rlist imatrix exn cond : Type}.
Variable as_List : sexp -> outcome exn rlist.
Variable wrap : imatrix -> sexp.
Variable exception_to_r_condition : exn -> cond.
Variable CellCounts : rlist -> rlist -> world -> outcome exn imatrix * world.
Variable CellCounts_character :
  rlist -> rlist -> world -> outcome exn imatrix * world.

(** C++ code as a state-and-exception computation. *)
Definition cpp (A : Type) : Type := world -> outcome exn A * world.

Definition ret {A} (a : A) : cpp A := fun w => (Normal a, w).

Definition bind {A B} (m : cpp A) (k : A -> cpp B) : cpp B :=
  fun w =>
    match m w with
    | (Normal a, w') => k a w'
    | (Thrown e, w') => (Thrown e, w')
    end.

Notation "x <- m ;; k" := (bind m (fun x => k))
  (at level 61, m at next level, right associativity).

(** [Rcpp::traits::input_parameter< List >::type x(xSEXP)]: the argument
    as a list.  The conversion can throw and has no other effect; the
    arguments are converted in the order of their declarations. *)
Definition input_parameter (s : sexp) : cpp rlist := fun w => (as_List s, w).

(** A block that owns an [Rcpp::RNGScope] local: the scope is entered
    where the local is constructed and left when the block is, whether by
    [return] or by an exception unwinding through it. *)
Definition RNGScope_block {A} (body : cpp A) : cpp A :=
  fun w => let (o, w') := body (enterRNGScope w) in (o, exitRNGScope w').

(** Modelled from the spec: [BEGIN_RCPP] and [END_RCPP] are macros of the
    Rcpp headers, which are not in src/.  They enclose the body in a
    [try] block whose handlers catch every C++ exception, build an R
    condition from it and raise that as an R error. *)
Definition rcpp_guard (body : cpp sexp) (w : world)
  : boundary exn cond sexp * world :=
  match body w with
  | (Normal v, w') => (Returned v, w')
  | (Thrown e, w') => (R_error (exception_to_r_condition e), w')
  end.

(** The same body without the guard, for comparison. *)
Definition unguarded (body : cpp sexp) (w : world)
  : boundary exn cond sexp * world :=
  match body w with
  | (Normal v, w') => (Returned v, w')
  | (Thrown e, w') => (Escaped e, w')
  end.

Notation "'BEGIN_RCPP' body 'END_RCPP'" := (rcpp_guard body)
  (at level 0, body at level 200).

(** RcppExports.cpp, lines 15-24. *)
Definition _COMPASS_CellCounts (xSEXP combosSEXP : sexp)
  : world -> boundary exn cond sexp * world :=
  BEGIN_RCPP
    RNGScope_block (
      x <- input_parameter xSEXP ;;
      combos <- input_parameter combosSEXP ;;
      rcpp_result_gen <- CellCounts x combos ;;
      ret (wrap rcpp_result_gen))
  END_RCPP.

(** RcppExports.cpp, lines 27-36. *)
Definition _COMPASS_CellCounts_character (dataSEXP combinationsSEXP : sexp)
  : world -> boundary exn cond sexp * world :=
  BEGIN_RCPP
    RNGScope_block (
      data <- input_parameter dataSEXP ;;
      combinations <- input_parameter combinationsSEXP ;;
      rcpp_result_gen <- CellCounts_character data combinations ;;
      ret (wrap rcpp_result_gen))
  END_RCPP.

(** What the caller sees when a counter outcome [o] crosses the guard. *)
Definition delivered (o : outcome exn imatrix) : boundary exn cond sexp :=
  match o with
  | Normal m => Returned (wrap m)
  | Thrown e => R_error (exception_to_r_condition e)
  end.

(** What a generated wrapper amounts to for a counter [f], written out:
    the RNG scope is entered before anything else runs, the arguments are
    converted, [f] runs, the scope is left, and the outcome is delivered
    across the guard. *)
Definition guarded_call
    (f : rlist -> rlist -> world -> outcome exn imatrix * world)
    (a b : sexp) (w : world) : boundary exn cond sexp * world :=
  match as_List a with
  | Thrown e =>
      (R_error (exception_to_r_condition e), exitRNGScope (enterRNGScope w))
  | Normal x =>
      match as_List b with
      | Thrown e =>
          (R_error (exception_to_r_condition e),
           exitRNGScope (enterRNGScope w))
      | Normal y =>
          let (o, w') := f x y (enterRNGScope w) in
          (delivered o, exitRNGScope w')
      end
  end.

End Wrappers.

End Exports.

(** ** The Combinatorial Counter *)

Module Counter.

Inductive counter_error : Type :=
| MarkerAbsent (m : string)
| EmptyTable.

Inductive result (A : Type) : Type :=
| OK (a : A)
| Error (e : counter_error).
Arguments OK {A} a.
Arguments Error {A} e.

(** A cell table for one run: the marker of each column and, for each
    subject in input order, that subject's cells, one row per cell with
    one entry per marker. *)
Record CellTable (V : Type) : Type := MkTable {
  markers : list string;
  subjects : list (list (list V))
}.
Arguments MkTable {V} markers subjects.
Arguments markers {V} c.
Arguments subjects {V} c.

(** A category definition assigns a value to markers, by name. *)
Definition category (V : Type) : Type := list (string * V).

Section Encoding.

Context {V : Type}.
Variable veqb : V -> V -> bool.

Fixpoint assignment (cat : category V) (m : string) : option V :=
  match cat with
  | [] => None
  | (m', v) :: rest => if String.eqb m' m then Some v else assignment rest m
  end.

(** The cell agrees with the category on every marker column. *)
Definition cell_matches (ms : list string) (cell : list V) (cat : category V)
  : bool :=
  forallb (fun mv => match assignment cat (fst mv) with
                     | Some v' => veqb (snd mv) v'
                     | None => false
                     end)
          (combine ms cell).

(** First marker that a category list refers to and the data lacks. *)
Definition absent_marker (ms : list string) (combos : list (category V))
  : option string :=
  find (fun m => negb (existsb (String.eqb m) ms))
       (flat_map (map fst) combos).

Definition table_empty (t : CellTable V) : bool :=
  forallb (fun cells => match cells with [] => true | _ => false end)
          (subjects t).

(** Inner loop: run over the cells of one subject with a running tally. *)
Fixpoint count_cells (ms : list string) (cat : category V)
    (cells : list (list V)) (num : Z) : Z :=
  match cells with
  | [] => num
  | cell :: rest =>
      count_cells ms cat rest (if cell_matches ms cell cat then num + 1 else num)
  end.

(** One output row: a tally per category, in the order of the list. *)
Definition count_subject (ms : list string) (combos : list (category V))
    (cells : list (list V)) : list Z :=
  map (fun cat => count_cells ms cat cells 0) combos.

(** Modelled from the spec: the body of the counter is not in src/
    (RcppExports.cpp declares [CellCounts] and [CellCounts_character] and
    calls them).  Following section 4.1: the result has one row per subject
    and one column per category; an entry counts the subject's cells that
    equal the category on every marker; a category that refers to a marker
    absent from the data, or an empty cell table, is an error. *)
Definition count_table (t : CellTable V) (combos : list (category V))
  : result (list (list Z)) :=
  match absent_marker (markers t) combos with
  | Some m => Error (MarkerAbsent m)
  | None =>
      if table_empty t then Error EmptyTable
      else OK (map (count_subject (markers t) combos) (subjects t))
  end.

End Encoding.

(** Modelled from the spec: the counter on the numeric/logical encoding,
    whose body is not in src/; marker positivity is a truth value. *)
Definition CellCounts (x : CellTable bool) (combos : list (category bool))
  : result (list (list Z)) :=
  count_table Bool.eqb x combos.

(** Modelled from the spec: the counter on the categorical encoding,
    whose body is not in src/; marker positivity is a string label. *)
Definition CellCounts_character (data : CellTable string)
    (combinations : list (category string)) : result (list (list Z)) :=
  count_table String.eqb data combinations.

(** Re-encoding of a logical input with string labels. *)
Definition label_table (lab : bool -> string) (x : CellTable bool)
  : CellTable string :=
  MkTable (markers x) (map (map (map lab)) (subjects x)).

Definition label_combos (lab : bool -> string) (combos : list (category bool))
  : list (category string) :=
  map (map (fun mv => (fst mv, lab (snd mv)))) combos.

(** The marker-positivity vector of the cell is identical to the
    definition of the category across all markers: the cell has one entry
    per marker column, and the entry under each marker is the value that the
    category gives to that marker. *)
Definition identical (ms : list string) (cell : list bool)
    (cat : category bool) : Prop :=
  Forall2 (fun m v => In (m, v) cat) ms cell.

(** A table has one entry per marker in every row. *)
Definition rectangular {V : Type} (x : CellTable V) : Prop :=
  Forall (Forall (fun cell : list V => List.length cell = List.length (markers x)))
         (subjects x).

(** A category definition gives a marker at most one value. *)
Definition single_valued {V : Type} (cat : category V) : Prop :=
  NoDup (map fst cat).

(** [count_of P l n]: exactly [n] elements of [l] satisfy [P]. *)
Inductive count_of {A : Type} (P : A -> Prop) : list A -> Z -> Prop :=
| count_nil : count_of P [] 0
| count_hit a l n : P a -> count_of P l n -> count_of P (a :: l) (n + 1)
| count_miss a l n : ~ P a -> count_of P l n -> count_of P (a :: l) n.

Definition row_sum (row : list Z) : Z := fold_right Z.add 0 row.

(** Row sums equal the number of cells of the subject. *)
Definition conserved (x : CellTable bool) (M : list (list Z)) : Prop :=
  Forall2 (fun cells row => row_sum row = Z.of_nat (List.length cells))
          (subjects x) M.

(** Two markers, the three categories other than the all-negative one. *)
Definition two_markers : list string := ["IL2"; "TNFa"].

Definition three_categories : list (category bool) :=
  [ [("IL2", true); ("TNFa", false)];
    [("IL2", false); ("TNFa", true)];
    [("IL2", true); ("TNFa", true)] ].

(** One subject with an IL2-only cell and an all-negative cell. *)
Definition table_with_negative_cell : CellTable bool :=
  MkTable two_markers [ [ [true; false]; [false; false] ] ].

(** Two subjects, no all-negative cell; the second has no IL2-only cell. *)
Definition table_all_responding : CellTable bool :=
  MkTable two_markers
    [ [ [true; false]; [true; true]; [true; false] ];
      [ [false; true] ] ].

Definition plus_minus (b : bool) : string := if b then "+" else "-".

End Counter.

(** ** Acceptance counters of the category-activation sampler *)

Module Activation.

Record counters : Type := Counters {
  pb1 : Z;
  pb2 : Z
}.

(** Counters at chain start. *)
Definition chain_start : counters := Counters 0 0.

(** Book-keeping of one add/remove proposal. *)
Definition propose (c : counters) (accepted : bool) : counters :=
  Counters (pb1 c + 1) (if accepted then pb2 c + 1 else pb2 c).

(** Modelled from the spec: the body of [updategammak_noPu] is not in src/
    (COMPASS_init.c declares and registers it).  Of its effect only the
    counters are modelled, following section 4.4: the call scores a series
    of candidate moves, each accepted or rejected; [pb1] is incremented on
    each proposal and [pb2] on each acceptance.  The list gives, for each
    proposal of the call in order, whether it was accepted. *)
Definition updategammak_noPu (c : counters) (proposals : list bool)
  : counters :=
  fold_left propose proposals c.

(** Counters after each iteration of a chain, oldest first. *)
Fixpoint chain (c : counters) (iterations : list (list bool))
  : list counters :=
  match iterations with
  | [] => []
  | it :: rest =>
      let c' := updategammak_noPu c it in
      c' :: chain c' rest
  end.

(** The trajectory of a chain, from its start. *)
Definition trajectory (iterations : list (list bool)) : list counters :=
  chain_start :: chain chain_start iterations.

Definition acceptances (proposals : list bool) : Z :=
  Z.of_nat (List.length (filter (fun a => a) proposals)).

(** [pb1 >= pb2 >= 0]. *)
Definition counters_ok (c : counters) : Prop := pb2 c <= pb1 c /\ 0 <= pb2 c.

(** Neither counter is smaller in [c'] than in [c]. *)
Definition counters_le (c c' : counters) : Prop :=
  pb1 c <= pb1 c' /\ pb2 c <= pb2 c'.

End Activation.

(** ** The stimulated hyperparameter updater *)

Module Updater.

(** The nine inputs that the two entry points share, under the names of
    the parameters of their prototypes. *)
Record inputs : Type := Inputs {
  alphast : Q;
  n_s : list (list Z);
  K : Z;
  I : Z;
  lambda_s : Q;
  gammat : list (list Z);
  var_1 : Q;
  var_2 : Q;
  p_var : Q
}.

(** The random draws of one Metropolis step: the move drawn from the
    symmetric proposal (whose spread the tuning variances set) and the
    logarithm of the uniform draw. *)
Record mh_draws : Type := Draws {
  step : Q;
  log_u : Q
}.


Section Likelihood.

(** The likelihood that the counts induce on [alphas], in log space; the
    spec names it without giving its form. *)
Variable log_likelihood : list (list Z) -> Z -> Z -> list (list Z) -> Q -> Q.



(** Modelled from the spec: the body of [updatealphas_Exp_MH] is not in
    src/ (COMPASS_init.c declares and registers it).  Following section
    4.2: propose a candidate from the symmetric proposal, compute the
    log-acceptance ratio from the exponential prior and the induced
    likelihood, accept or reject, and return the new value of [alphas]. *)
Definition updatealphas_Exp_MH (x : inputs) (d : mh_draws) : Q :=
  let candidate := (alphast x + step d)%Q in
  let prior_part := (- (lambda_s x * (candidate - alphast x)))%Q in
  let likelihood_part :=
    (log_likelihood (n_s x) (K x) (I x) (gammat x) candidate
     - log_likelihood (n_s x) (K x) (I x) (gammat x) (alphast x))%Q in
  if Qlt_le_dec (log_u d) (prior_part + likelihood_part)
  then candidate
  else alphast x.

(** Modelled from the spec: the body of [updatealphas_Exp] is not in src/.
    Following section 4.2, the plain variant makes an exact conditional
    draw and returns the value drawn; [drawn] is that draw.  The spec does
    not say what the tenth input [ttt] is for. *)
Definition updatealphas_Exp (x : inputs) (ttt : Z) (drawn : Q) : Q := drawn.

End Likelihood.

End Updater.

(** ** Linkage between the two files *)

Module Linkage.

(** RcppExports.cpp, lines 15 and 27: the heads of the two wrapper
    definitions ([RcppExport SEXP name(SEXP, SEXP)]). *)
Definition _COMPASS_CellCounts_head : fdecl :=
  Fdecl SEXP "_COMPASS_CellCounts" [(SEXP, "xSEXP"); (SEXP, "combosSEXP")].

Definition _COMPASS_CellCounts_character_head : fdecl :=
  Fdecl SEXP "_COMPASS_CellCounts_character"
    [(SEXP, "dataSEXP"); (SEXP, "combinationsSEXP")].

(** The functions that RcppExports.cpp defines. *)
Definition defined_in_RcppExports : list fdecl :=
  [_COMPASS_CellCounts_head; _COMPASS_CellCounts_character_head].

(** The definition, if any, that a forward declaration refers to: the one
    with the same C name. *)
Definition definition_of (d : fdecl) : option fdecl :=
  find (fun h => String.eqb (fd_name h) (fd_name d)) defined_in_RcppExports.

(** Pairwise distinct strings, as a test. *)
Fixpoint distinct (l : list string) : bool :=
  match l with
  | [] => true
  | n :: rest => negb (existsb (String.eqb n) rest) && distinct rest
  end.

(** Names under which [info] has [.Call] routines. *)
Definition registered_names (info : Init.DllInfo) : list string :=
  map Init.r_name (Init.CallSymbols info).

(** What [.Call] asks of a routine: a function that returns a SEXP and
    takes SEXPs only, as many as the entry says; in addition the
    parameters have distinct names. *)
Definition dot_Call_convention (r : Init.routine) : Prop :=
  match Init.r_fun r with
  | Some d =>
      fd_ret d = SEXP
      /\ Forall (fun p => fst p = SEXP) (fd_params d)
      /\ Init.r_numArgs r = Z.of_nat (List.length (fd_params d))
      /\ 1 <= Init.r_numArgs r
      /\ distinct (param_names d) = true
  | None => False
  end.

(** [names] with every occurrence of [n] taken out. *)
Definition without (n : string) (names : list string) : list string :=
  filter (fun m => negb (String.eqb n m)) names.

End Linkage.

(** * Properties *)

(** ** Registration table and prototypes *)

Section InitFacts.
Import Init.

Lemma read_table_app_sentinel (es : list R_CallMethodDef) :
  Forall (fun e => name e <> None) es ->
  List.length (read_table (es ++ [sentinel])%list) = List.length es.
Proof.
  induction 1 as [|e es He _ IH]; simpl; [reflexivity|].
  destruct (name e) eqn:E; [simpl; now rewrite IH | congruence].
Qed.

(** C9: every entry of [callMethods] before the terminator carries the
    number of SEXP parameters of the prototype it points to (5, 1, 1, 2, 2,
    9, 9, 10, 9, 9, 8, 16 in table order), no such entry has a NULL name,
    and the table ends with the [{NULL, NULL, 0}] sentinel, so that
    registration reads all twelve entries. *)
Theorem callMethods_arity_agrees :
  exists entries,
    callMethods = (entries ++ [CallDef None None 0])%list
    /\ Forall arity_agrees entries
    /\ Forall (fun e => name e <> None) entries
    /\ summary (read_table callMethods) =
         [ ("C_melt_dataframe", Some "melt_dataframe", 5);
           ("C_melt_matrix", Some "melt_matrix", 1);
           ("C_transpose_list", Some "transpose_list", 1);
           ("C_COMPASS_CellCounts_character",
            Some "_COMPASS_CellCounts_character", 2);
           ("C_COMPASS_CellCounts", Some "_COMPASS_CellCounts", 2);
           ("C_samplePuPs", Some "samplePuPs", 9);
           ("C_samplePuPs_full", Some "samplePuPs_full", 9);
           ("C_updatealphas_Exp", Some "updatealphas_Exp", 10);
           ("C_updatealphas_Exp_MH", Some "updatealphas_Exp_MH", 9);
           ("C_updatealphau_noPu_Exp", Some "updatealphau_noPu_Exp", 9);
           ("C_updatealphau_noPu_Exp_MH", Some "updatealphau_noPu_Exp_MH", 8);
           ("C_updategammak_noPu", Some "updategammak_noPu", 16) ].
Proof.
  exists (removelast callMethods).
  split; [reflexivity|].
  split.
  - unfold callMethods; cbn [removelast].
    repeat (constructor; [reflexivity|]). constructor.
  - split; [|reflexivity].
    unfold callMethods; cbn [removelast].
    repeat (constructor; [discriminate|]). constructor.
Qed.

(** C6: [samplePuPs] and [samplePuPs_full] are declared with exactly the
    nine inputs alphau, alphas, gammat, T, K, nsi, nui, d, M, and after
    [R_init_COMPASS] each is a [.Call] routine registered with arity 9,
    whatever the state of the library descriptor before. *)
Theorem samplers_nine_inputs_registered (info : DllInfo) :
  takes_exactly samplePuPs sampler_inputs
  /\ takes_exactly samplePuPs_full sampler_inputs
  /\ sampler_inputs =
       ["alphau"; "alphas"; "gammat"; "T"; "K"; "nsi"; "nui"; "d"; "M"]
  /\ sexp_arity samplePuPs = 9 /\ sexp_arity samplePuPs_full = 9
  /\ lookup_call (R_init_COMPASS info) "C_samplePuPs"
       = Some (Routine "C_samplePuPs" (Some samplePuPs) 9)
  /\ lookup_call (R_init_COMPASS info) "C_samplePuPs_full"
       = Some (Routine "C_samplePuPs_full" (Some samplePuPs_full) 9).
Proof. repeat split. Qed.



End InitFacts.

(** ** Exported wrappers *)

Section WrapperFacts.
Import Exports.

Context {sexp rlist imatrix exn cond : Type}.
Variable as_List : sexp -> outcome exn rlist.
Variable wrap : imatrix -> sexp.
Variable exception_to_r_condition : exn -> cond.
Variable CellCounts : rlist -> rlist -> world -> outcome exn imatrix * world.
Variable CellCounts_character :
  rlist -> rlist -> world -> outcome exn imatrix * world.

Lemma guarded_call_not_escaped f a b w e :
  fst (guarded_call as_List wrap exception_to_r_condition f a b w)
    <> Escaped e.
Proof.
  unfold guarded_call.
  destruct (as_List a); [|discriminate].
  destruct (as_List b); [|discriminate].
  destruct (f _ _ _) as [[m|e'] w']; discriminate.
Qed.

Lemma _COMPASS_CellCounts_unfold a b w :
  _COMPASS_CellCounts as_List wrap exception_to_r_condition CellCounts a b w
    = guarded_call as_List wrap exception_to_r_condition CellCounts a b w.
Proof.
  unfold _COMPASS_CellCounts, guarded_call, rcpp_guard, RNGScope_block,
    bind, input_parameter, ret.
  destruct (as_List a); [|reflexivity].
  destruct (as_List b); [|reflexivity].
  destruct (CellCounts _ _ _) as [[m|e'] w']; reflexivity.
Qed.

Lemma _COMPASS_CellCounts_character_unfold a b w :
  _COMPASS_CellCounts_character as_List wrap exception_to_r_condition
      CellCounts_character a b w
    = guarded_call as_List wrap exception_to_r_condition
        CellCounts_character a b w.
Proof.
  unfold _COMPASS_CellCounts_character, guarded_call, rcpp_guard,
    RNGScope_block, bind, input_parameter, ret.
  destruct (as_List a); [|reflexivity].
  destruct (as_List b); [|reflexivity].
  destruct (CellCounts_character _ _ _) as [[m|e'] w']; reflexivity.
Qed.

(** C10: both exported wrappers run the counter inside the guard, in a
    state where the RNG scope has already been entered; no C++ exception
    leaves either wrapper, and an exception thrown by the counter reaches
    the caller as the R error built from it, the RNG scope having been
    left. *)
Theorem wrappers_deliver_r_error (xSEXP combosSEXP : sexp) (w : world) :
  (forall e,
      fst (_COMPASS_CellCounts as_List wrap exception_to_r_condition
             CellCounts xSEXP combosSEXP w) <> Escaped e
      /\ fst (_COMPASS_CellCounts_character as_List wrap
                exception_to_r_condition CellCounts_character
                xSEXP combosSEXP w) <> Escaped e)
  /\ (forall x combos,
         as_List xSEXP = Normal x -> as_List combosSEXP = Normal combos ->
         (forall e w',
             CellCounts x combos (enterRNGScope w) = (Thrown e, w') ->
             _COMPASS_CellCounts as_List wrap exception_to_r_condition
               CellCounts xSEXP combosSEXP w
             = (R_error (exception_to_r_condition e), exitRNGScope w'))
         /\ (forall m w',
               CellCounts x combos (enterRNGScope w) = (Normal m, w') ->
               _COMPASS_CellCounts as_List wrap exception_to_r_condition
                 CellCounts xSEXP combosSEXP w
               = (Returned (wrap m), exitRNGScope w'))
         /\ (forall e w',
               CellCounts_character x combos (enterRNGScope w)
                 = (Thrown e, w') ->
               _COMPASS_CellCounts_character as_List wrap
                 exception_to_r_condition CellCounts_character
                 xSEXP combosSEXP w
               = (R_error (exception_to_r_condition e), exitRNGScope w'))
         /\ (forall m w',
               CellCounts_character x combos (enterRNGScope w)
                 = (Normal m, w') ->
               _COMPASS_CellCounts_character as_List wrap
                 exception_to_r_condition CellCounts_character
                 xSEXP combosSEXP w
               = (Returned (wrap m), exitRNGScope w'))).
Proof.
  split.
  - intros e. rewrite _COMPASS_CellCounts_unfold,
      _COMPASS_CellCounts_character_unfold.
    split; apply guarded_call_not_escaped.
  - intros x combos Hx Hc.
    rewrite _COMPASS_CellCounts_unfold, _COMPASS_CellCounts_character_unfold.
    unfold guarded_call. rewrite Hx, Hc.
    repeat split; intros ? w' H; rewrite H; reflexivity.
Qed.

End WrapperFacts.

(** A counter that throws, behind the wrapper: the caller gets an R error
    and the generator state is read before and written back after. *)
Lemma wrappers_deliver_r_error_witness :
  Exports._COMPASS_CellCounts
    (fun s : Z => Exports.Normal (Z.to_nat s)) (fun m : Z => m)
    (fun e : string => ("Error: " ++ e)%string)
    (fun _ _ w => (Exports.Thrown "marker absent", w))
    1 2 (Exports.World 0 [])
  = (Exports.R_error "Error: marker absent",
     Exports.World 0 [Exports.GetRNGstate; Exports.PutRNGstate]).
Proof.
  pose proof (wrappers_deliver_r_error
                (fun s : Z => Exports.Normal (E:=string) (Z.to_nat s))
                (fun m : Z => m)
                (fun e : string => ("Error: " ++ e)%string)
                (fun _ _ w => (Exports.Thrown "marker absent", w))
                (fun _ _ w => (Exports.Normal 0, w))
                1 2 (Exports.World 0 [])) as [_ H].
  destruct (H 1%nat 2%nat eq_refl eq_refl) as [H1 _].
  exact (H1 "marker absent" _ eq_refl).
Defined.

(** ** Combinatorial Counter *)

Section CounterFacts.
Import Counter.

(** *** The tally loop *)

Lemma count_cells_acc {V} (veqb : V -> V -> bool) ms cat cells num :
  count_cells veqb ms cat cells num = num + count_cells veqb ms cat cells 0.
Proof.
  revert num. induction cells as [|cell rest IH]; intros num; simpl.
  - lia.
  - destruct (cell_matches veqb ms cell cat).
    + rewrite (IH (num + 1)), (IH 1). lia.
    + apply IH.
Qed.

Lemma count_cells_cons {V} (veqb : V -> V -> bool) ms cat cell rest :
  count_cells veqb ms cat (cell :: rest) 0 =
  (if cell_matches veqb ms cell cat then 1 else 0)
  + count_cells veqb ms cat rest 0.
Proof.
  simpl. destruct (cell_matches veqb ms cell cat); [|lia].
  now rewrite count_cells_acc.
Qed.

Lemma find_none_iff {A} (f : A -> bool) (l : list A) :
  find f l = None <-> (forall a, In a l -> f a = false).
Proof.
  split; [apply find_none|].
  induction l as [|a l IH]; intros H; simpl; [reflexivity|].
  rewrite (H a (or_introl eq_refl)). apply IH.
  intros b Hb. apply H. now right.
Qed.

(** *** Re-labelling *)

Section Labels.
Variable lab : bool -> string.
Hypothesis lab_inj : lab true <> lab false.

Lemma lab_eqb a b : String.eqb (lab a) (lab b) = Bool.eqb a b.
Proof.
  destruct a, b; simpl; try apply String.eqb_refl;
    apply String.eqb_neq; congruence.
Qed.

Lemma assignment_label (cat : category bool) m :
  assignment (map (fun mv => (fst mv, lab (snd mv))) cat) m
  = option_map lab (assignment cat m).
Proof.
  induction cat as [|[m' v] cat IH]; simpl; [reflexivity|].
  destruct (String.eqb m' m); [reflexivity | exact IH].
Qed.

Lemma cell_matches_label ms cell (cat : category bool) :
  cell_matches String.eqb ms (map lab cell)
    (map (fun mv => (fst mv, lab (snd mv))) cat)
  = cell_matches Bool.eqb ms cell cat.
Proof.
  unfold cell_matches. revert cell.
  induction ms as [|m ms IH]; intros [|v cell]; simpl; try reflexivity.
  rewrite IH, assignment_label.
  destruct (assignment cat m); simpl; [now rewrite lab_eqb | reflexivity].
Qed.

Lemma count_cells_label ms (cat : category bool) cells num :
  count_cells String.eqb ms (map (fun mv => (fst mv, lab (snd mv))) cat)
    (map (map lab) cells) num
  = count_cells Bool.eqb ms cat cells num.
Proof.
  revert num. induction cells as [|cell rest IH]; intros num; simpl;
    [reflexivity|].
  now rewrite cell_matches_label, IH.
Qed.

Lemma absent_marker_label ms (combos : list (category bool)) :
  absent_marker ms (label_combos lab combos) = absent_marker ms combos.
Proof.
  unfold absent_marker, label_combos. f_equal.
  induction combos as [|cat combos IH]; simpl; [reflexivity|].
  rewrite IH, map_map. reflexivity.
Qed.

Lemma table_empty_label (x : CellTable bool) :
  table_empty (label_table lab x) = table_empty x.
Proof.
  unfold table_empty, label_table; simpl.
  induction (subjects x) as [|cells rest IH]; simpl; [reflexivity|].
  rewrite IH. now destruct cells.
Qed.

Lemma count_matrix_label ms (combos : list (category bool)) subs :
  map (count_subject String.eqb ms (label_combos lab combos))
      (map (map (map lab)) subs)
  = map (count_subject Bool.eqb ms combos) subs.
Proof.
  rewrite map_map. apply map_ext. intros cells.
  unfold count_subject, label_combos. rewrite map_map.
  apply map_ext. intros cat. apply count_cells_label.
Qed.

End Labels.

(** C2: a logical input and the same input written with string labels (one
    label per truth value, the two labels distinct) give the same result
    from the two counters: the same matrix, entry for entry, or the same
    error. *)
Theorem CellCounts_encoding_invariant (lab : bool -> string)
    (x : CellTable bool) (combos : list (category bool)) :
  lab true <> lab false ->
  CellCounts_character (label_table lab x) (label_combos lab combos)
  = CellCounts x combos.
Proof.
  intros Hlab. unfold CellCounts_character, CellCounts, count_table.
  rewrite table_empty_label. cbn [markers subjects label_table].
  rewrite absent_marker_label, (count_matrix_label lab Hlab).
  reflexivity.
Qed.

(** Two tables that the two counters receive for the same cells. *)
Lemma CellCounts_encoding_invariant_witness :
  CellCounts_character (label_table plus_minus table_all_responding)
    (label_combos plus_minus three_categories)
  = CellCounts table_all_responding three_categories
  /\ CellCounts table_all_responding three_categories
     = OK [ [2; 0; 1]; [0; 1; 0] ].
Proof.
  split; [|reflexivity].
  apply (CellCounts_encoding_invariant plus_minus).
  discriminate.
Defined.

(** The two labels have to differ: under one label for both truth values
    a negative cell is counted for a positive category. *)
Lemma same_label_confuses_counters :
  CellCounts (MkTable ["IL2"] [ [ [false] ] ]) [ [("IL2", true)] ]
    = OK [ [0] ]
  /\ CellCounts_character
       (label_table (fun _ => "x") (MkTable ["IL2"] [ [ [false] ] ]))
       (label_combos (fun _ => "x") [ [("IL2", true)] ])
     = OK [ [1] ].
Proof. split; reflexivity. Qed.

(** *** Entries are exact-match counts *)

Lemma assignment_In {V} (cat : category V) m v :
  single_valued cat -> (assignment cat m = Some v <-> In (m, v) cat).
Proof.
  unfold single_valued.
  induction cat as [|[m' v'] cat IH]; simpl; intros Hnd.
  - split; [discriminate | contradiction].
  - inversion Hnd as [|? ? Hnotin Hnd']; subst.
    destruct (String.eqb m' m) eqn:E.
    + apply String.eqb_eq in E. subst m'. split.
      * intros H. injection H as ->. now left.
      * intros [H|H]; [now injection H as -> |].
        exfalso. apply Hnotin. change m with (fst (m, v)). now apply in_map.
    + apply String.eqb_neq in E. rewrite (IH Hnd'). split.
      * intros H. now right.
      * intros [H|H]; [injection H as -> _; congruence | exact H].
Qed.

Lemma cell_matches_identical ms cell cat :
  List.length cell = List.length ms -> single_valued cat ->
  cell_matches Bool.eqb ms cell cat = true <-> identical ms cell cat.
Proof.
  intros Hlen Hcat. unfold cell_matches, identical.
  revert cell Hlen.
  induction ms as [|m ms IH]; intros [|v cell] Hlen; try discriminate Hlen.
  - simpl. split; [constructor | reflexivity].
  - injection Hlen as Hlen. cbn [combine forallb fst snd].
    rewrite andb_true_iff, (IH cell Hlen). split.
    + intros [Hm Hrest]. constructor; [|exact Hrest].
      apply (assignment_In cat m v Hcat).
      destruct (assignment cat m) as [v'|]; [|discriminate].
      apply Bool.eqb_prop in Hm. now subst.
    + intros H. inversion H as [|? ? ? ? Hm Hrest]; subst.
      apply (assignment_In cat m v Hcat) in Hm. rewrite Hm.
      split; [apply Bool.eqb_reflx | exact Hrest].
Qed.

Lemma count_cells_count_of ms cat cells :
  Forall (fun cell : list bool => List.length cell = List.length ms) cells ->
  single_valued cat ->
  count_of (fun cell => identical ms cell cat) cells
           (count_cells Bool.eqb ms cat cells 0).
Proof.
  intros Hrect Hcat.
  induction Hrect as [|cell rest Hlen _ IH]; [constructor|].
  rewrite count_cells_cons.
  destruct (cell_matches Bool.eqb ms cell cat) eqn:E.
  - replace (1 + count_cells Bool.eqb ms cat rest 0)
      with (count_cells Bool.eqb ms cat rest 0 + 1) by lia.
    apply count_hit; [now apply cell_matches_identical | exact IH].
  - apply count_miss; [|exact IH].
    intros H. apply (cell_matches_identical ms cell cat Hlen Hcat) in H.
    congruence.
Qed.

Lemma Forall2_map_fun {A B} (P : A -> B -> Prop) (f : A -> B) l :
  (forall a, In a l -> P a (f a)) -> Forall2 P l (map f l).
Proof.
  induction l as [|a l IH]; intros H; simpl; constructor.
  - apply H. now left.
  - apply IH. intros b Hb. apply H. now right.
Qed.

Lemma absent_marker_none {V} ms (combos : list (category V)) :
  (forall cat m v, In cat combos -> In (m, v) cat -> In m ms) ->
  absent_marker ms combos = None.
Proof.
  intros H. unfold absent_marker. apply find_none_iff.
  intros m Hm. apply in_flat_map in Hm as [cat [Hcat Hin]].
  apply in_map_iff in Hin as [[m' v] [E Hin]]. simpl in E. subst m'.
  apply negb_false_iff, existsb_exists. exists m. split.
  - exact (H cat m v Hcat Hin).
  - apply String.eqb_refl.
Qed.

Lemma table_empty_false {V} (x : CellTable V) :
  (exists cells, In cells (subjects x) /\ cells <> []) ->
  table_empty x = false.
Proof.
  intros [cells [Hin Hne]]. unfold table_empty.
  destruct (forallb _ (subjects x)) eqn:E; [|reflexivity].
  rewrite forallb_forall in E. specialize (E cells Hin).
  destruct cells; [congruence | discriminate].
Qed.

(** C4: on a non-empty cell table (one entry per marker in every row) and
    a list of category definitions (each giving a marker one value) whose
    markers all occur in the data, the counter returns a matrix with one
    row per subject, in input order, and one column per category, in list
    order, whose entry is the number of the subject's cells that are
    identical to the category on every marker. *)
Theorem CellCounts_counts_identical_cells (x : CellTable bool)
    (combos : list (category bool)) :
  rectangular x ->
  Forall single_valued combos ->
  (exists cells, In cells (subjects x) /\ cells <> []) ->
  (forall cat m v, In cat combos -> In (m, v) cat -> In m (markers x)) ->
  exists M,
    CellCounts x combos = OK M
    /\ Forall2
         (fun cells row =>
            Forall2
              (fun cat n =>
                 count_of (fun cell => identical (markers x) cell cat) cells n)
              combos row)
         (subjects x) M.
Proof.
  intros Hrect Hcats Hne Hms.
  exists (map (count_subject Bool.eqb (markers x) combos) (subjects x)).
  split.
  - unfold CellCounts, count_table.
    now rewrite (absent_marker_none _ _ Hms), (table_empty_false _ Hne).
  - apply Forall2_map_fun. intros cells Hcells.
    unfold count_subject. apply Forall2_map_fun. intros cat Hcat.
    apply count_cells_count_of.
    + unfold rectangular in Hrect. rewrite Forall_forall in Hrect.
      exact (Hrect cells Hcells).
    + rewrite Forall_forall in Hcats. exact (Hcats cat Hcat).
Qed.

Lemma count_of_unique {A} (P : A -> Prop) l n n' :
  count_of P l n -> count_of P l n' -> n = n'.
Proof.
  intros H. revert n'.
  induction H as [|a l n Ha _ IH|a l n Ha _ IH]; intros n' H';
    inversion H'; subst; try reflexivity; try contradiction.
  - f_equal. now apply IH.
  - now apply IH.
Qed.

Lemma CellCounts_counts_identical_cells_witness :
  exists M,
    CellCounts table_all_responding three_categories = OK M
    /\ Forall2
         (fun cells row =>
            Forall2
              (fun cat n =>
                 count_of (fun cell => identical two_markers cell cat) cells n)
              three_categories row)
         (subjects table_all_responding) M.
Proof.
  apply (CellCounts_counts_identical_cells table_all_responding
           three_categories).
  - repeat constructor.
  - repeat (constructor;
            [unfold single_valued; simpl;
             repeat (constructor;
                     [simpl; intros H;
                      repeat (destruct H as [H|H]; [discriminate H|]);
                      exact H|]);
             constructor|]).
    constructor.
  - exists [ [false; true] ]. split; [simpl; tauto | discriminate].
  - intros cat m v Hcat Hin. simpl in Hcat.
    repeat (destruct Hcat as [<-|Hcat];
            [simpl in Hin;
             repeat (destruct Hin as [Hin|Hin];
                     [injection Hin as <- _; simpl; tauto|]);
             contradiction|]).
    contradiction.
Defined.

(** *** Row sums *)

(** In the counter as modelled, a cell that matches no category of the
    list is counted in no column: with two markers and the three
    categories other than the all-negative one, a subject with one
    IL2-only cell and one all-negative cell gets a row that sums to 1,
    while the subject has 2 cells. *)
Lemma row_sum_misses_unlisted_cells :
  CellCounts table_with_negative_cell three_categories = OK [ [1; 0; 0] ]
  /\ ~ conserved table_with_negative_cell [ [1; 0; 0] ].
Proof.
  split; [reflexivity|].
  unfold conserved. intros H. inversion H as [|? ? ? ? Hrow _]; subst.
  discriminate Hrow.
Qed.

End CounterFacts.

(** ** Acceptance counters *)

Section ActivationFacts.
Import Activation.

Lemma updategammak_noPu_counts c proposals :
  updategammak_noPu c proposals
  = Counters (pb1 c + Z.of_nat (List.length proposals))
             (pb2 c + acceptances proposals).
Proof.
  unfold updategammak_noPu, acceptances. revert c.
  induction proposals as [|a rest IH]; intros [p1 p2].
  - simpl. f_equal; lia.
  - cbn [fold_left]. rewrite IH. unfold propose. cbn [pb1 pb2].
    destruct a; cbn [filter List.length]; f_equal; lia.
Qed.

Lemma acceptances_bounds proposals :
  0 <= acceptances proposals <= Z.of_nat (List.length proposals).
Proof.
  unfold acceptances. split; [lia|].
  apply inj_le, filter_length_le.
Qed.

Lemma updategammak_noPu_ok c proposals :
  counters_ok c -> counters_ok (updategammak_noPu c proposals).
Proof.
  unfold counters_ok. rewrite updategammak_noPu_counts. cbn [pb1 pb2].
  pose proof (acceptances_bounds proposals). lia.
Qed.

Lemma updategammak_noPu_le c proposals :
  counters_le c (updategammak_noPu c proposals).
Proof.
  unfold counters_le. rewrite updategammak_noPu_counts. cbn [pb1 pb2].
  pose proof (acceptances_bounds proposals). lia.
Qed.

Lemma counters_le_trans a b c :
  counters_le a b -> counters_le b c -> counters_le a c.
Proof. unfold counters_le. lia. Qed.

Lemma chain_ok c iterations :
  counters_ok c -> Forall counters_ok (chain c iterations).
Proof.
  revert c. induction iterations as [|it rest IH]; intros c Hc; simpl.
  - constructor.
  - constructor; [|apply IH]; now apply updategammak_noPu_ok.
Qed.

Lemma chain_above c iterations :
  Forall (counters_le c) (chain c iterations).
Proof.
  revert c. induction iterations as [|it rest IH]; intros c; simpl.
  - constructor.
  - constructor; [apply updategammak_noPu_le|].
    eapply Forall_impl; [|apply IH].
    intros c'. apply counters_le_trans, updategammak_noPu_le.
Qed.

Lemma chain_sorted c iterations :
  StronglySorted counters_le (chain c iterations).
Proof.
  revert c. induction iterations as [|it rest IH]; intros c; simpl.
  - constructor.
  - constructor; [apply IH | apply chain_above].
Qed.

(** C8: along a chain, from its start and after every iteration, the
    counters satisfy pb1 >= pb2 >= 0, and each state is below every later
    one in both counters; one call of [updategammak_noPu] adds the number
    of its proposals to pb1 and the number of its acceptances to pb2. *)
Theorem acceptance_counters_invariant (iterations : list (list bool)) :
  Forall counters_ok (trajectory iterations)
  /\ StronglySorted counters_le (trajectory iterations)
  /\ (forall c proposals,
        pb1 (updategammak_noPu c proposals)
          = pb1 c + Z.of_nat (List.length proposals)
        /\ pb2 (updategammak_noPu c proposals)
           = pb2 c + acceptances proposals
        /\ counters_le c (updategammak_noPu c proposals)).
Proof.
  unfold trajectory. split; [|split].
  - constructor; [unfold counters_ok, chain_start; simpl; lia|].
    apply chain_ok. unfold counters_ok, chain_start; simpl; lia.
  - constructor; [apply chain_sorted | apply chain_above].
  - intros c proposals. split; [|split].
    + now rewrite updategammak_noPu_counts.
    + now rewrite updategammak_noPu_counts.
    + apply updategammak_noPu_le.
Qed.

End ActivationFacts.

(** ** Initialisation and lookup *)

Section RegistrationFacts.
Import Init Linkage.

Lemma distinct_NoDup l : distinct l = true -> NoDup l.
Proof.
  induction l as [|n rest IH]; simpl; intros H; constructor.
  - apply andb_prop in H as [H _]. apply negb_true_iff in H.
    intros Hin. rewrite <- not_true_iff_false in H. apply H.
    apply existsb_exists. exists n. split; [exact Hin | apply String.eqb_refl].
  - apply IH. now apply andb_prop in H as [_ H].
Qed.

Lemma find_by_name (l : list routine) r :
  NoDup (map r_name l) -> In r l ->
  find (fun r' => String.eqb (r_name r') (r_name r)) l = Some r.
Proof.
  induction l as [|a l IH]; intros Hnd Hin; [contradiction|].
  simpl in Hnd. inversion Hnd as [|? ? Hnotin Hnd']; subst.
  simpl. destruct Hin as [->|Hin].
  - now rewrite String.eqb_refl.
  - destruct (String.eqb (r_name a) (r_name r)) eqn:E.
    + apply String.eqb_eq in E. exfalso. apply Hnotin. rewrite E.
      now apply in_map.
    + now apply IH.
Qed.

Lemma find_by_name_none (l : list routine) n :
  find (fun r => String.eqb (r_name r) n) l = None
  <-> ~ In n (map r_name l).
Proof.
  induction l as [|a l IH]; simpl; [tauto|].
  destruct (String.eqb (r_name a) n) eqn:E.
  - apply String.eqb_eq in E. split; [discriminate | tauto].
  - apply String.eqb_neq in E. rewrite IH. tauto.
Qed.

(** X1: the initialiser replaces the [.Call] table by the twelve routines
    of [callMethods] whatever was registered before, leaves the [.C],
    [.Fortran] and [.External] tables untouched, switches dynamic lookup
    off, and running it a second time changes nothing. *)
Theorem R_init_COMPASS_effect (info info' : DllInfo) :
  CallSymbols (R_init_COMPASS info) = CallSymbols (R_init_COMPASS info')
  /\ List.length (CallSymbols (R_init_COMPASS info)) = 12%nat
  /\ CSymbols (R_init_COMPASS info) = CSymbols info
  /\ FortranSymbols (R_init_COMPASS info) = FortranSymbols info
  /\ ExternalSymbols (R_init_COMPASS info) = ExternalSymbols info
  /\ useDynamicSymbols (R_init_COMPASS info) = false
  /\ R_init_COMPASS (R_init_COMPASS info) = R_init_COMPASS info.
Proof. repeat split. Qed.

(** X2: the registered names are pairwise distinct, so after
    initialisation every routine of the table is found under its own
    name: no entry hides another one. *)
Theorem lookup_call_finds_each_routine (info : DllInfo) (r : routine) :
  In r (CallSymbols (R_init_COMPASS info)) ->
  NoDup (registered_names (R_init_COMPASS info))
  /\ lookup_call (R_init_COMPASS info) (r_name r) = Some r.
Proof.
  intros Hin.
  assert (Hnd : NoDup (registered_names (R_init_COMPASS info)))
    by (apply distinct_NoDup; reflexivity).
  split; [exact Hnd|].
  unfold lookup_call. now apply find_by_name.
Qed.

Lemma lookup_call_finds_each_routine_witness :
  lookup_call (R_init_COMPASS (MkDllInfo [] [] [] [] true))
    "C_updategammak_noPu"
  = Some (Routine "C_updategammak_noPu" (Some updategammak_noPu) 16).
Proof.
  refine (proj2 (lookup_call_finds_each_routine (MkDllInfo [] [] [] [] true)
                   (Routine "C_updategammak_noPu" (Some updategammak_noPu) 16)
                   _)).
  simpl. tauto.
Defined.

(** X3: a routine is registered under its [C_] name only: the C symbol of
    a registered routine is not itself a registered name, and a lookup by
    a name that is not registered finds nothing. *)
Theorem lookup_call_by_symbol_fails (info : DllInfo) (r : routine) (d : fdecl) :
  In r (CallSymbols (R_init_COMPASS info)) ->
  r_fun r = Some d ->
  lookup_call (R_init_COMPASS info) (fd_name d) = None
  /\ (forall n, ~ In n (registered_names (R_init_COMPASS info)) ->
               lookup_call (R_init_COMPASS info) n = None).
Proof.
  intros Hin Hfun. split.
  - unfold lookup_call. apply find_by_name_none.
    simpl in Hin.
    repeat (destruct Hin as [<-|Hin];
            [injection Hfun as <-; simpl; intros H;
             repeat (destruct H as [H|H]; [discriminate H|]); exact H|]).
    contradiction.
  - intros n Hn. unfold lookup_call. now apply find_by_name_none.
Qed.

Lemma lookup_call_by_symbol_fails_witness :
  lookup_call (R_init_COMPASS (MkDllInfo [] [] [] [] true)) "samplePuPs"
  = None.
Proof.
  refine (proj1 (lookup_call_by_symbol_fails (MkDllInfo [] [] [] [] true)
                   (Routine "C_samplePuPs" (Some samplePuPs) 9) samplePuPs
                   _ eq_refl)).
  simpl. tauto.
Defined.

(** X4: every routine registered by the initialiser follows the [.Call]
    convention: it points to a function that returns a SEXP and takes
    SEXP parameters only, as many as the entry says and at least one,
    with pairwise distinct names. *)
Theorem registered_routines_follow_dot_Call (info : DllInfo) :
  Forall dot_Call_convention (CallSymbols (R_init_COMPASS info)).
Proof.
  cbn [R_init_COMPASS R_registerRoutines R_useDynamicSymbols CallSymbols
       callMethods read_table entry sentinel name fun_ numArgs].
  repeat (constructor;
          [unfold dot_Call_convention; cbn;
           repeat split; try discriminate;
           repeat (constructor; [reflexivity|]); constructor|]).
  constructor.
Qed.

(** X5: the plain unstimulated updater takes the inputs of its
    Metropolis-Hastings variant, in the same order, and one input more,
    ttt, which it has once and the variant has not; the same holds of the
    stimulated pair; accordingly the registered arities differ by one. *)
Theorem plain_updaters_add_ttt (info : DllInfo) :
  without "ttt" (param_names updatealphau_noPu_Exp)
    = param_names updatealphau_noPu_Exp_MH
  /\ without "ttt" (param_names updatealphas_Exp)
     = param_names updatealphas_Exp_MH
  /\ count_occ string_dec (param_names updatealphau_noPu_Exp) "ttt" = 1%nat
  /\ count_occ string_dec (param_names updatealphas_Exp) "ttt" = 1%nat
  /\ ~ In "ttt" (param_names updatealphau_noPu_Exp_MH)
  /\ ~ In "ttt" (param_names updatealphas_Exp_MH)
  /\ option_map r_numArgs
       (lookup_call (R_init_COMPASS info) "C_updatealphau_noPu_Exp")
     = option_map (fun r => r_numArgs r + 1)
         (lookup_call (R_init_COMPASS info) "C_updatealphau_noPu_Exp_MH")
  /\ option_map r_numArgs
       (lookup_call (R_init_COMPASS info) "C_updatealphas_Exp")
     = option_map (fun r => r_numArgs r + 1)
         (lookup_call (R_init_COMPASS info) "C_updatealphas_Exp_MH").
Proof.
  repeat split;
    cbn; intros H; repeat (destruct H as [H|H]; [discriminate H|]); exact H.
Qed.

(** X6: the forward declarations of the two wrappers in COMPASS_init.c
    agree with the heads of their definitions in RcppExports.cpp (name,
    return type, parameter types and names), and these two are the only
    registered routines that RcppExports.cpp defines. *)
Theorem wrapper_declarations_match_definitions (info : DllInfo) :
  definition_of Init._COMPASS_CellCounts = Some Init._COMPASS_CellCounts
  /\ definition_of Init._COMPASS_CellCounts_character
     = Some Init._COMPASS_CellCounts_character
  /\ (forall r d,
        In r (CallSymbols (R_init_COMPASS info)) -> r_fun r = Some d ->
        definition_of d <> None ->
        d = Init._COMPASS_CellCounts
        \/ d = Init._COMPASS_CellCounts_character).
Proof.
  split; [reflexivity|]. split; [reflexivity|].
  intros r d Hin Hfun Hdef. simpl in Hin.
  repeat (destruct Hin as [<-|Hin];
          [injection Hfun as <-;
           first [now left | now right | exfalso; apply Hdef; reflexivity]|]).
  contradiction.
Qed.

Lemma wrapper_declarations_match_definitions_witness :
  Init._COMPASS_CellCounts = Init._COMPASS_CellCounts
  \/ Init._COMPASS_CellCounts = Init._COMPASS_CellCounts_character.
Proof.
  destruct (wrapper_declarations_match_definitions
              (MkDllInfo [] [] [] [] true)) as [_ [_ H]].
  apply (H (Routine "C_COMPASS_CellCounts" (Some Init._COMPASS_CellCounts) 2)).
  - simpl. tauto.
  - reflexivity.
  - discriminate.
Defined.

End RegistrationFacts.

(** ** RNG scope and argument conversion in the wrappers *)

Section WrapperScopeFacts.
Import Exports.

Context {sexp rlist imatrix exn cond : Type}.
Variable as_List : sexp -> outcome exn rlist.
Variable wrap : imatrix -> sexp.
Variable exception_to_r_condition : exn -> cond.




(** X8: when the conversion of an argument fails, the counter is not
    run: the result of either wrapper is the same for every counter, it
    is the R error built from a conversion exception, and the RNG scope
    has been entered and left. *)
Theorem wrappers_bad_argument
    (f g : rlist -> rlist -> world -> outcome exn imatrix * world)
    (a b : sexp) (w : world) :
  (exists e, as_List a = Thrown e) \/ (exists e, as_List b = Thrown e) ->
  _COMPASS_CellCounts as_List wrap exception_to_r_condition f a b w
    = _COMPASS_CellCounts as_List wrap exception_to_r_condition g a b w
  /\ _COMPASS_CellCounts_character as_List wrap exception_to_r_condition
       f a b w
     = _COMPASS_CellCounts as_List wrap exception_to_r_condition f a b w
  /\ exists e,
       (as_List a = Thrown e \/ as_List b = Thrown e)
       /\ _COMPASS_CellCounts as_List wrap exception_to_r_condition f a b w
          = (R_error (exception_to_r_condition e),
             exitRNGScope (enterRNGScope w)).
Proof.
  intros H.
  unfold _COMPASS_CellCounts, _COMPASS_CellCounts_character, rcpp_guard,
    RNGScope_block, bind, input_parameter, ret.
  destruct (as_List a) as [x|ea] eqn:Ea.
  - destruct (as_List b) as [y|eb] eqn:Eb.
    + destruct H as [[e H]|[e H]]; discriminate H.
    + repeat split. exists eb. split; [now right | reflexivity].
  - repeat split. exists ea. split; [now left | reflexivity].
Qed.

End WrapperScopeFacts.


(** A second argument that is not a list: the R error of the conversion,
    whatever the counter. *)
Lemma wrappers_bad_argument_witness :
  Exports._COMPASS_CellCounts
    (fun s : Z => if (0 <=? s)%Z then Exports.Normal (Z.to_nat s)
                  else Exports.Thrown "not a list")
    (fun m : Z => m) (fun e : string => e)
    (fun x y w => (Exports.Normal 7, w))
    1 (-2) (Exports.World 0 [])
  = Exports._COMPASS_CellCounts
      (fun s : Z => if (0 <=? s)%Z then Exports.Normal (Z.to_nat s)
                    else Exports.Thrown "not a list")
      (fun m : Z => m) (fun e : string => e)
      (fun x y w => (Exports.Thrown "never thrown", w))
      1 (-2) (Exports.World 0 []).
Proof.
  refine (proj1 (wrappers_bad_argument _ _ _ _ _ 1 (-2) (Exports.World 0 []) _)).
  right. exists "not a list". reflexivity.
Defined.
